(** * SwiftXR 3D mini-editor: session state and click dispatch of [src/App.tsx]

    A shallow embedding of the state-carrying part of the React component
    [SwiftXR3DEditor] and of the click handler of [Model]:

    - the four [useState] cells become the record [Session];
    - every event handler becomes a computation in a small state monad [M]
      over a [World] (the session plus a log of the calls made to the
      browser: [URL.createObjectURL], [URL.revokeObjectURL], [prompt],
      [event.stopPropagation], [console.error]);
    - what the browser answers ([Date.now()], the text typed into [prompt],
      the URL minted by [URL.createObjectURL] or the exception it throws)
      is an explicit argument of the handler that asks for it;
    - the conditional rendering of the JSX decides which handler can be
      triggered in which session; it becomes the predicate [enabled].

    JavaScript strings are modelled as [string] (a sequence of 8-bit code
    units, so the letters that have a case are [A]..[Z] and [a]..[z]);
    numbers of a position are IEEE-754 binary64 values ([float]).  The
    [useEffect] that revokes the object URL when [modelUrl] changes or the
    component unmounts writes no state and is left out. *)

From Stdlib Require Import ZArith Ascii String PrimFloat.
From stdpp Require Import base tactics option list strings pretty.

Local Open Scope string_scope.
Local Open Scope Z_scope.

(** ** JavaScript string helpers used by the component *)

Module JS.

(** [String.prototype.toLowerCase], on the code units the model has:
    [A]..[Z] (65..90) move to [a]..[z], everything else stays. *)
Definition toLowerCase_char (c : ascii) : ascii :=
  let n := nat_of_ascii c in
  if (65 <=? n)%nat && (n <=? 90)%nat then ascii_of_nat (n + 32) else c.

Fixpoint toLowerCase (s : string) : string :=
  match s with
  | EmptyString => EmptyString
  | String c r => String (toLowerCase_char c) (toLowerCase r)
  end.

(** [String.prototype.endsWith(search)]: with [start = length - searchLength],
    false when [start < 0], otherwise whether the code units from [start]
    on are those of [search]. *)
Definition endsWith (s search : string) : bool :=
  let len := String.length s in
  let searchLength := String.length search in
  if (searchLength <=? len)%nat
  then bool_decide (substring (len - searchLength) searchLength s = search)
  else false.

(** Truthiness of a [string]: every string but the empty one. *)
Definition truthy (s : string) : bool :=
  match s with
  | EmptyString => false
  | String _ _ => true
  end.

(** Truthiness of a [string | null]. *)
Definition truthy_or_null (o : option string) : bool :=
  match o with
  | None => false
  | Some s => truthy s
  end.

(** [Number.prototype.toString()] of an integral number of milliseconds,
    as [Date.now()] returns it: the decimal digits, with a leading minus
    sign below zero.  (Time values are bounded by 8.64e15, far below the
    1e21 at which JavaScript switches to exponent notation.) *)
Definition toString (n : Z) : string := pretty n.

(** [String.prototype.trim], which the specification speaks of and the
    component never calls: white space here is tab, line feed, vertical
    tab, form feed, carriage return and space. *)
Definition isWhiteSpace (c : ascii) : bool :=
  let n := nat_of_ascii c in
  ((9 <=? n)%nat && (n <=? 13)%nat) || (n =? 32)%nat.

Fixpoint trimStart (s : string) : string :=
  match s with
  | EmptyString => EmptyString
  | String c r => if isWhiteSpace c then trimStart r else s
  end.

Definition trimEnd (s : string) : string :=
  String.rev (trimStart (String.rev s)).

Definition trim (s : string) : string := trimEnd (trimStart s).

End JS.

(** ** Data model (the interfaces at the top of the file) *)

(** [THREE.Vector3], as far as the component reads it. *)
Record Vector3 := { x : float; y : float; z : float }.

(** [interface Hotspot]. *)
Record Hotspot := {
  id : string;
  position : float * float * float;
  label : string
}.

(** The part of a DOM [File] the component looks at, and its bytes. *)
Record File := { name : string; content : string }.

(** The four [useState] cells of [SwiftXR3DEditor]. *)
Record Session := {
  modelUrl : option string;
  hotspots : list Hotspot;
  isLoading : bool;
  error : option string
}.

(** [useState(null)], [useState([])], [useState(false)], [useState(null)]. *)
Definition initial : Session :=
  {| modelUrl := None; hotspots := []; isLoading := false; error := None |}.

(** Calls that leave the component. *)
Inductive Effect :=
| RevokeObjectURL (url : string)
| CreateObjectURL (file : File)
| ConsoleError
| StopPropagation
| Prompt (message : string).

Record World := { session : Session; log : list Effect }.

(** ** The handler monad: state over [World] *)

Definition M (A : Type) : Type := World -> A * World.

#[global] Instance M_ret : MRet M := fun A (a : A) w => (a, w).

#[global] Instance M_bind : MBind M := fun A B (k : A -> M B) (m : M A) w =>
  let (a, w') := m w in k a w'.

Definition skip : M unit := mret tt.

Definition call (e : Effect) : M unit :=
  fun w => (tt, {| session := session w; log := (log w ++ [e])%list |}).

Definition readModelUrl : M (option string) :=
  fun w => (modelUrl (session w), w).

Definition update (f : Session -> Session) : M unit :=
  fun w => (tt, {| session := f (session w); log := log w |}).

Definition setModelUrl (v : option string) : M unit :=
  update (fun s => {| modelUrl := v; hotspots := hotspots s;
                      isLoading := isLoading s; error := error s |}).

(** [setHotspots(prev => f(prev))]; [setHotspots(v)] is [setHotspots (fun _ => v)]. *)
Definition setHotspots (f : list Hotspot -> list Hotspot) : M unit :=
  update (fun s => {| modelUrl := modelUrl s; hotspots := f (hotspots s);
                      isLoading := isLoading s; error := error s |}).

Definition setIsLoading (v : bool) : M unit :=
  update (fun s => {| modelUrl := modelUrl s; hotspots := hotspots s;
                      isLoading := v; error := error s |}).

Definition setError (v : option string) : M unit :=
  update (fun s => {| modelUrl := modelUrl s; hotspots := hotspots s;
                      isLoading := isLoading s; error := v |}).

(** Running a handler on a session, with an empty log. *)
Definition run (m : M unit) (s : Session) : World :=
  snd (m {| session := s; log := [] |}).

Definition exec (m : M unit) (s : Session) : Session := session (run m s).

Definition calls (m : M unit) (s : Session) : list Effect := log (run m s).

(** ** Handlers of [SwiftXR3DEditor] *)

(** [handleFileUpload].  [files0] is [event.target.files?.[0]]; [created] is
    what [URL.createObjectURL(file)] does when it is reached: [Some url]
    when it returns [url], [None] when it throws.  The function is [async]
    but awaits nothing, so it runs to its end within the event.  The
    [modelUrl] it tests before revoking is the one of the current render. *)
Definition handleFileUpload (files0 : option File) (created : option string)
  : M unit :=
  match files0 with
  | None => skip
  | Some file =>
      if negb (JS.endsWith (JS.toLowerCase (name file)) ".glb") then
        setError (Some "Please select a .GLB file")
      else
        setIsLoading true ;;
        setError None ;;
        current ← readModelUrl ;
        match current with
        | Some url => if JS.truthy url then call (RevokeObjectURL url) else skip
        | None => skip
        end ;;
        call (CreateObjectURL file) ;;
        match created with
        | Some url =>
            setModelUrl (Some url) ;;
            setHotspots (fun _ => [])
        | None =>
            setError (Some "Failed to load model") ;;
            call ConsoleError
        end ;;
        setIsLoading false
  end.

(** [addHotspot].  [now] is the value of [Date.now()]. *)
Definition addHotspot (now : Z) (position : Vector3) (label : string)
  : M unit :=
  let newHotspot :=
    {| id := JS.toString now;
       position := (x position, y position, z position);
       label := label |} in
  setHotspots (fun prev => (prev ++ [newHotspot])%list).

(** [deleteHotspot]: [prev.filter(h => h.id !== id)]. *)
Definition deleteHotspot (i : string) : M unit :=
  setHotspots (fun prev => filter (fun h => id h ≠ i) prev).

(** [clearHotspots]. *)
Definition clearHotspots : M unit :=
  setHotspots (fun _ => []).

(** ** The click handler of [Model] *)

(** The fields of [ThreeEvent<MouseEvent>] that [handleClick] reads. *)
Record ClickEvent := { shiftKey : bool; point : Vector3 }.

(** [handleClick].  [answer] is what [prompt] returns if it is called:
    [None] for [null] (the dialog was cancelled), [Some text] otherwise. *)
Definition handleClick (onAddHotspot : Vector3 -> string -> M unit)
    (event : ClickEvent) (answer : option string) : M unit :=
  if shiftKey event then
    call StopPropagation ;;
    call (Prompt "Enter hotspot label:") ;;
    match answer with
    | Some label =>
        if JS.truthy label then onAddHotspot (point event) label else skip
    | None => skip
    end
  else skip.

(** ** Events of the rendered page *)

Inductive Event :=
| FileChosen (files0 : option File) (created : option string)
| ModelClicked (event : ClickEvent) (answer : option string) (now : Z)
| DeleteClicked (i : string)
| ClearClicked.

(** The wiring of the JSX: [onChange={handleFileUpload}],
    [onAddHotspot={addHotspot}] handed down to [Model],
    [onClick={() => deleteHotspot(hotspot.id)}] and [onDelete] of a marker,
    [onClick={clearHotspots}]. *)
Definition handle (e : Event) : M unit :=
  match e with
  | FileChosen files0 created => handleFileUpload files0 created
  | ModelClicked event answer now => handleClick (addHotspot now) event answer
  | DeleteClicked i => deleteHotspot i
  | ClearClicked => clearHotspots
  end.

(** Which controls the page shows.  The file input is always there; [Model]
    is mounted under [modelUrl && ...] inside the [Canvas] branch of
    [!modelUrl ? ... : ...]; a delete button exists per listed hotspot (the
    list under [hotspots.length > 0 && ...], the markers under
    [modelUrl && ...]) and passes that hotspot's id; the clear button is
    under [modelUrl && ...]. *)
Definition enabled (s : Session) (e : Event) : bool :=
  match e with
  | FileChosen _ _ => true
  | ModelClicked _ _ _ => JS.truthy_or_null (modelUrl s)
  | DeleteClicked i => bool_decide (i ∈ id <$> hotspots s)
  | ClearClicked => JS.truthy_or_null (modelUrl s)
  end.

Definition step (s : Session) (e : Event) : option Session :=
  if enabled s e then Some (exec (handle e) s) else None.

(** Sessions the page can be in: the initial one and whatever an enabled
    event makes of a session the page can be in. *)
Inductive reachable : Session -> Prop :=
| reachable_initial : reachable initial
| reachable_step s e s' :
    reachable s -> step s e = Some s' -> reachable s'.

(** Replaying a list of events from a session; [None] when one of them is
    not available at its turn. *)
Fixpoint replay (s : Session) (es : list Event) : option Session :=
  match es with
  | [] => Some s
  | e :: es' =>
      match step s e with
      | Some s' => replay s' es'
      | None => None
      end
  end.

(** The calls made before [URL.createObjectURL]: the old URL is revoked
    when there is one. *)
Definition revocation (s : Session) : list Effect :=
  match modelUrl s with
  | Some url => if JS.truthy url then [RevokeObjectURL url] else []
  | None => []
  end.

(** ** Sample data: the scenario of the specification *)

Definition scene_glb : File := {| name := "scene.glb"; content := "glTF" |}.

Definition at_1_2_3 : Vector3 := {| x := 1%float; y := 2%float; z := 3%float |}.

Definition plain_click : ClickEvent := {| shiftKey := false; point := at_1_2_3 |}.

Definition shift_click : ClickEvent := {| shiftKey := true; point := at_1_2_3 |}.

Definition loaded : Session :=
  {| modelUrl := Some "blob:1"; hotspots := []; isLoading := false;
     error := None |}.

Definition engine : Hotspot :=
  {| id := "1700000000000"; position := (1%float, 2%float, 3%float);
     label := "Engine" |}.

Definition annotated : Session :=
  {| modelUrl := Some "blob:1"; hotspots := [engine]; isLoading := false;
     error := None |}.

Definition wing : Hotspot :=
  {| id := "1700000000500"; position := (1%float, 2%float, 3%float);
     label := "Wing" |}.

Definition two_hotspots : Session :=
  {| modelUrl := Some "blob:1"; hotspots := [engine; wing];
     isLoading := false; error := None |}.

(** A second hotspot created in the millisecond of [engine]. *)
Definition engine_again : Hotspot :=
  {| id := "1700000000000"; position := (1%float, 2%float, 3%float);
     label := "Wing" |}.

Definition twins : Session :=
  {| modelUrl := Some "blob:1"; hotspots := [engine; engine_again];
     isLoading := false; error := None |}.

Definition model_gltf : File := {| name := "model.gltf"; content := "{}" |}.

(** A model on the page and the message of a later, rejected choice. *)
Definition loaded_then_rejected : Session :=
  {| modelUrl := Some "blob:1"; hotspots := []; isLoading := false;
     error := Some "Please select a .GLB file" |}.

(** ** Vocabulary of the statements *)

(** The ids of a collection, in order. *)
Definition ids (hs : list Hotspot) : list string := id <$> hs.

(** The ids a clock can have produced at a reading other than [now]. *)
Definition minted_at_another_time (now : Z) (i : string) : Prop :=
  exists t : Z, t ≠ now /\ i = JS.toString t.

(** The invariant carried along a run: hotspots exist only while the page
    shows a model, that is while [modelUrl] is truthy. *)
Definition hotspots_need_model (s : Session) : Prop :=
  JS.truthy_or_null (modelUrl s) = false -> hotspots s = [].

(** The test of [handleFileUpload], on the name alone. *)
Definition accepted (fileName : string) : bool :=
  JS.endsWith (JS.toLowerCase fileName) ".glb".

(** A capital letter, [A]..[Z]. *)
Definition upper_case (c : ascii) : Prop :=
  (65 <= nat_of_ascii c <= 90)%nat.

(** The same code unit, or a capital letter and its small letter (32
    further on), in either order. *)
Definition same_letter (c d : ascii) : Prop :=
  c = d \/
  (upper_case c /\ nat_of_ascii d = (nat_of_ascii c + 32)%nat) \/
  (upper_case d /\ nat_of_ascii c = (nat_of_ascii d + 32)%nat).

Inductive same_ignoring_case : string -> string -> Prop :=
| same_empty : same_ignoring_case "" ""
| same_String c d s t :
    same_letter c d -> same_ignoring_case s t ->
    same_ignoring_case (String c s) (String d t).

(** "Ends with the extension under a case-insensitive comparison", said
    without [toLowerCase]: the name is some stem followed by a tail that is
    the extension letter for letter, each letter in either case. *)
Definition ends_with_ignoring_case (fileName extension : string) : Prop :=
  exists stem tail,
    fileName = stem +:+ tail /\ same_ignoring_case tail extension.

(** What [prev.filter(h => h.id !== id)] keeps. *)
Definition others (i : string) (hs : list Hotspot) : list Hotspot :=
  filter (fun h => id h ≠ i) hs.

(** The hotspots carrying the id. *)
Definition carrying (i : string) (hs : list Hotspot) : list Hotspot :=
  filter (fun h => id h = i) hs.

(** Sessions reached by a run whose clicks on the model read strictly
    increasing values of [Date.now()]; the index is the last value read. *)
Inductive ticking : Z -> Session -> Prop :=
| ticking_initial t : ticking t initial
| ticking_click t s event answer now s' :
    ticking t s -> t < now ->
    step s (ModelClicked event answer now) = Some s' -> ticking now s'
| ticking_file t s files0 created s' :
    ticking t s -> step s (FileChosen files0 created) = Some s' ->
    ticking t s'
| ticking_delete t s i s' :
    ticking t s -> step s (DeleteClicked i) = Some s' -> ticking t s'
| ticking_clear t s s' :
    ticking t s -> step s ClearClicked = Some s' -> ticking t s'.

Definition minted_by (t : Z) (i : string) : Prop :=
  exists u : Z, u <= t /\ i = JS.toString u.

Definition distinct_and_minted_by (t : Z) (s : Session) : Prop :=
  NoDup (ids (hotspots s)) /\ Forall (minted_by t) (ids (hotspots s)).

(** ** The effect that releases the object URL *)

(** The cleanup function returned by the [useEffect] of [SwiftXR3DEditor],
    closed over the [modelUrl] of the render that registered it. *)
Definition cleanup (captured : option string) : M unit :=
  match captured with
  | Some url => if JS.truthy url then call (RevokeObjectURL url) else skip
  | None => skip
  end.

(** What the effect does when an event has been handled and the component
    has rendered again: its dependency list is [[modelUrl]], so when
    [modelUrl] is the same value as before nothing runs; otherwise the
    cleanup of the previous render runs (the new effect only registers the
    next cleanup). *)
Definition commit (before after : Session) : list Effect :=
  if decide (modelUrl before = modelUrl after) then []
  else calls (cleanup (modelUrl before)) before.

(** Unmounting runs the cleanup registered last. *)
Definition unmount (s : Session) : list Effect :=
  calls (cleanup (modelUrl s)) s.

(** The life of a mounted component: the session after a list of events and
    every call made on the way, by the handlers and by the effect; [None]
    when an event is not available at its turn. *)
Fixpoint lifetime (s : Session) (es : list Event)
  : option (Session * list Effect) :=
  match es with
  | [] => Some (s, [])
  | e :: es' =>
      if enabled s e then
        let w := run (handle e) s in
        match lifetime (session w) es' with
        | Some (s', l) => Some (s', (log w ++ commit s (session w) ++ l)%list)
        | None => None
        end
      else None
  end.

(** The object URLs a list of events installs as [modelUrl]. *)
Definition installs (url : string) (e : Event) : Prop :=
  exists file, e = FileChosen (Some file) (Some url) /\
               accepted (name file) = true.

(** ** What the components render *)

(** The marker component [Hotspot] of the source (the record [Hotspot]
    above is the interface of the same name): its local [hovered] cell, its
    pointer handlers and what it shows. *)
Inductive PointerEvent := PointerEnter | PointerLeave.

(** [onPointerEnter={() => setHovered(true)}],
    [onPointerLeave={() => setHovered(false)}]. *)
Definition setHovered (hovered : bool) (e : PointerEvent) : bool :=
  match e with
  | PointerEnter => true
  | PointerLeave => false
  end.

Record HotspotProps := {
  props_position : float * float * float;
  props_label : string;
  onDelete : M unit
}.

Record HotspotView := {
  group_position : float * float * float;
  indicator : bool;
  text : string;
  button_onClick : M unit
}.

(** [function Hotspot({ position, label, onDelete })], at a value of its
    [hovered] cell: the sphere under [hovered && ...], the label, and the
    button whose [onClick] is [e.stopPropagation(); onDelete()]. *)
Definition Hotspot_component (props : HotspotProps) (hovered : bool)
  : HotspotView :=
  {| group_position := props_position props;
     indicator := hovered;
     text := props_label props;
     button_onClick := call StopPropagation ;; onDelete props |}.

(** [function Model({ url, onAddHotspot })]: the primitive and its
    [onClick].  The callback takes the value of [Date.now()] first. *)
Record ModelView := {
  model_url : string;
  model_onClick : Z -> ClickEvent -> option string -> M unit
}.

Definition Model (url : string)
    (onAddHotspot : Z -> Vector3 -> string -> M unit) : ModelView :=
  {| model_url := url;
     model_onClick := fun now event answer =>
       handleClick (onAddHotspot now) event answer |}.

(** [function Scene(...)]: under [modelUrl && ...] the model and one marker
    per hotspot, [key={hotspot.id}]; lights, controls and grid are fixed. *)
Record SceneView := {
  scene_model : option ModelView;
  scene_markers : list (string * HotspotProps)
}.

Definition Scene (modelUrl : option string) (hotspots : list Hotspot)
    (onAddHotspot : Z -> Vector3 -> string -> M unit)
    (onDeleteHotspot : string -> M unit) : SceneView :=
  if JS.truthy_or_null modelUrl then
    {| scene_model :=
         match modelUrl with
         | Some url => Some (Model url onAddHotspot)
         | None => None
         end;
       scene_markers :=
         (fun hotspot =>
            (id hotspot,
             {| props_position := position hotspot;
                props_label := label hotspot;
                onDelete := onDeleteHotspot (id hotspot) |})) <$> hotspots |}
  else {| scene_model := None; scene_markers := [] |}.

(** A row of the list of hotspots: [key={hotspot.id}], the label, and the
    button with [onClick={() => deleteHotspot(hotspot.id)}]. *)
Record RowView := {
  row_key : string;
  row_label : string;
  row_onClick : M unit
}.

(** The parts of the page that depend on the session. *)
Record PageView := {
  import_disabled : bool;
  import_text : string;
  clear_button : option nat;
  error_banner : option string;
  viewport : option SceneView;
  controls_info : bool;
  hotspot_list : option (nat * list RowView)
}.

(** The [return (...)] of [SwiftXR3DEditor]: the import button
    ([disabled={isLoading}], its text), the clear button with its count
    under [modelUrl && ...], the banner under [error && ...], the
    placeholder ([None]) or the canvas with the scene under
    [!modelUrl ? ... : ...], the controls panel under [modelUrl && ...], the
    list with its count under [hotspots.length > 0 && ...]. *)
Definition render (s : Session) : PageView :=
  {| import_disabled := isLoading s;
     import_text := if isLoading s then "Loading..." else "Import GLB Model";
     clear_button :=
       if JS.truthy_or_null (modelUrl s) then Some (length (hotspots s))
       else None;
     error_banner :=
       match error s with
       | Some message => if JS.truthy message then Some message else None
       | None => None
       end;
     viewport :=
       if negb (JS.truthy_or_null (modelUrl s)) then None
       else Some (Scene (modelUrl s) (hotspots s) addHotspot deleteHotspot);
     controls_info := JS.truthy_or_null (modelUrl s);
     hotspot_list :=
       if (0 <? length (hotspots s))%nat then
         Some (length (hotspots s),
               (fun hotspot =>
                  {| row_key := id hotspot;
                     row_label := label hotspot;
                     row_onClick := deleteHotspot (id hotspot) |})
                 <$> hotspots s)
       else None |}.

(** ** Further vocabulary *)

(** A hotspot as a click makes it: a label that passed [if (label)] and an
    id that renders a clock reading. *)
Definition made_by_click (h : Hotspot) : Prop :=
  label h ≠ "" /\ exists t : Z, id h = JS.toString t.

(** The messages the component ever puts in [error]. *)
Definition known_error (e : option string) : Prop :=
  e = None \/ e = Some "Please select a .GLB file" \/
  e = Some "Failed to load model".

(** A session between two events, as far as the file handler decides. *)
Definition settled (s : Session) : Prop :=
  isLoading s = false /\ known_error (error s).

(** * Properties *)

(** ** What each handler makes of a session *)

Lemma exec_addHotspot now p l s :
  exec (addHotspot now p l) s =
  {| modelUrl := modelUrl s;
     hotspots := hotspots s ++
       [{| id := JS.toString now; position := (x p, y p, z p); label := l |}];
     isLoading := isLoading s;
     error := error s |}.
Proof. reflexivity. Qed.

Lemma exec_deleteHotspot i s :
  exec (deleteHotspot i) s =
  {| modelUrl := modelUrl s;
     hotspots := filter (fun h => id h ≠ i) (hotspots s);
     isLoading := isLoading s;
     error := error s |}.
Proof. reflexivity. Qed.

Lemma exec_clearHotspots s :
  exec clearHotspots s =
  {| modelUrl := modelUrl s; hotspots := [];
     isLoading := isLoading s; error := error s |}.
Proof. reflexivity. Qed.

Lemma exec_skip s : exec skip s = s.
Proof. by destruct s. Qed.

Lemma run_handleClick_plain f event answer s :
  shiftKey event = false ->
  run (handleClick f event answer) s = {| session := s; log := [] |}.
Proof. intros E. unfold handleClick. by rewrite E. Qed.

Lemma run_handleClick_shift now event answer s :
  shiftKey event = true ->
  run (handleClick (addHotspot now) event answer) s =
  {| session :=
       match answer with
       | Some l =>
           if JS.truthy l then exec (addHotspot now (point event) l) s else s
       | None => s
       end;
     log := [StopPropagation; Prompt "Enter hotspot label:"] |}.
Proof.
  intros E. unfold handleClick. rewrite E.
  destruct answer as [l|]; [destruct l|]; reflexivity.
Qed.

Lemma exec_upload_nothing created s :
  exec (handleFileUpload None created) s = s.
Proof. apply exec_skip. Qed.

Lemma run_upload_rejected file created s :
  JS.endsWith (JS.toLowerCase (name file)) ".glb" = false ->
  run (handleFileUpload (Some file) created) s =
  {| session :=
       {| modelUrl := modelUrl s; hotspots := hotspots s;
          isLoading := isLoading s;
          error := Some "Please select a .GLB file" |};
     log := [] |}.
Proof. intros E. unfold handleFileUpload. by rewrite E. Qed.

Lemma run_upload_loaded file url s :
  JS.endsWith (JS.toLowerCase (name file)) ".glb" = true ->
  run (handleFileUpload (Some file) (Some url)) s =
  {| session :=
       {| modelUrl := Some url; hotspots := [];
          isLoading := false; error := None |};
     log := revocation s ++ [CreateObjectURL file] |}.
Proof.
  intros E. unfold handleFileUpload, revocation. rewrite E.
  destruct s as [[u|] hs ld er]; [destruct u|]; reflexivity.
Qed.

Lemma run_upload_failed file s :
  JS.endsWith (JS.toLowerCase (name file)) ".glb" = true ->
  run (handleFileUpload (Some file) None) s =
  {| session :=
       {| modelUrl := modelUrl s; hotspots := hotspots s;
          isLoading := false; error := Some "Failed to load model" |};
     log := revocation s ++ [CreateObjectURL file; ConsoleError] |}.
Proof.
  intros E. unfold handleFileUpload, revocation. rewrite E.
  destruct s as [[u|] hs ld er]; [destruct u|]; reflexivity.
Qed.

(** ** The scenario of the specification, replayed *)

Example scenario_import :
  replay initial [FileChosen (Some scene_glb) (Some "blob:1")] = Some loaded.
Proof. reflexivity. Qed.

Example scenario_annotate :
  replay loaded
    [ModelClicked plain_click (Some "ignored") 1699999999999;
     ModelClicked shift_click (Some "Engine") 1700000000000;
     ModelClicked shift_click None 1700000000500]
  = Some {| modelUrl := Some "blob:1"; hotspots := [engine];
            isLoading := false; error := None |}.
Proof. vm_compute. reflexivity. Qed.

Example scenario_delete_then_import :
  replay {| modelUrl := Some "blob:1"; hotspots := [engine];
            isLoading := false; error := None |}
    [DeleteClicked "1700000000000";
     FileChosen (Some scene_glb) (Some "blob:2")]
  = Some {| modelUrl := Some "blob:2"; hotspots := [];
            isLoading := false; error := None |}.
Proof. vm_compute. reflexivity. Qed.

Example scenario_release :
  calls (handleFileUpload (Some scene_glb) (Some "blob:2")) loaded
  = [RevokeObjectURL "blob:1"; CreateObjectURL scene_glb].
Proof. reflexivity. Qed.

(** No click on the model before a model is there. *)
Example no_model_no_click :
  step initial (ModelClicked shift_click (Some "Engine") 1700000000000) = None.
Proof. reflexivity. Qed.

(** ** Adding a hotspot *)

Lemma toString_inj t1 t2 : JS.toString t1 = JS.toString t2 -> t1 = t2.
Proof. unfold JS.toString. apply (inj pretty). Qed.

Lemma addHotspot_hotspots now p l s :
  hotspots (exec (addHotspot now p l) s) =
  (hotspots s ++
    [{| id := JS.toString now; position := (x p, y p, z p); label := l |}])%list.
Proof. reflexivity. Qed.

Lemma addHotspot_length now p l s :
  length (hotspots (exec (addHotspot now p l) s)) = S (length (hotspots s)).
Proof. rewrite addHotspot_hotspots, length_app. simpl. lia. Qed.

Lemma minted_elsewhere_fresh now hs :
  Forall (minted_at_another_time now) (ids hs) ->
  JS.toString now ∉ ids hs.
Proof.
  intros Hall Hin.
  rewrite Forall_forall in Hall.
  destruct (Hall _ Hin) as (t & Hne & Heq).
  apply toString_inj in Heq. congruence.
Qed.

(** C1, as the code has it: for every session and every non-empty label,
    [addHotspot] appends exactly one hotspot, so the count grows by one;
    its id is the decimal rendering of [Date.now()], and that id differs
    from every id already in the collection as soon as each of those was
    minted at another clock reading. *)
Theorem addHotspot_adds_one_time_stamped (s : Session) (now : Z)
    (p : Vector3) (l : string) :
  l ≠ "" ->
  let hs' := hotspots (exec (addHotspot now p l) s) in
  length hs' = S (length (hotspots s)) /\
  (exists h, hs' = (hotspots s ++ [h])%list /\ id h = JS.toString now /\
             position h = (x p, y p, z p) /\ label h = l) /\
  (Forall (minted_at_another_time now) (ids (hotspots s)) ->
   forall h, last hs' = Some h -> id h ∉ ids (hotspots s)).
Proof.
  intros _ hs'. subst hs'. split; [apply addHotspot_length|]. split.
  - eexists. split; [apply addHotspot_hotspots|]. done.
  - intros Hall h. rewrite addHotspot_hotspots, last_snoc.
    intros [= <-]. simpl. by apply minted_elsewhere_fresh.
Qed.

Lemma addHotspot_adds_one_time_stamped_witness :
  let hs' := hotspots (exec (addHotspot 1700000000500 at_1_2_3 "Wing")
                         annotated) in
  length hs' = 2%nat /\
  forall h, last hs' = Some h -> id h ∉ ["1700000000000"].
Proof.
  pose proof (addHotspot_adds_one_time_stamped
    annotated 1700000000500 at_1_2_3 "Wing") as H.
  destruct H as (Hlen & _ & Hfresh); [discriminate|].
  split; [exact Hlen|].
  apply Hfresh. repeat constructor.
  exists 1700000000000. split; [lia | reflexivity].
Defined.

(** C1 as stated fails: two shift-clicks answered within the same
    millisecond give the second hotspot the id of the first. *)
Lemma addHotspot_same_millisecond_repeats_id :
  replay loaded [ModelClicked shift_click (Some "Engine") 1700000000000]
    = Some annotated /\
  "Wing" ≠ "" /\
  last (hotspots (exec (addHotspot 1700000000000 at_1_2_3 "Wing") annotated))
    = Some {| id := "1700000000000";
              position := (1%float, 2%float, 3%float); label := "Wing" |} /\
  "1700000000000" ∈ ids (hotspots annotated).
Proof.
  split; [vm_compute; reflexivity|].
  split; [discriminate|]. split; [vm_compute; reflexivity|].
  apply list_elem_of_here.
Qed.

(** ** An empty or cancelled label *)

(** C2, as the code has it: when [prompt] is cancelled or answered with the
    empty string (the answer is tested as it is, nothing is trimmed), the
    click leaves the whole session as it was: no hotspot is created and the
    error message is not touched. *)
Theorem handleClick_cancelled_or_empty_keeps_session (s : Session)
    (event : ClickEvent) (now : Z) (answer : option string) :
  answer = None \/ answer = Some "" ->
  exec (handleClick (addHotspot now) event answer) s = s.
Proof.
  intros Hans. unfold exec.
  destruct (shiftKey event) eqn:E.
  - rewrite run_handleClick_shift by done. by destruct Hans as [-> | ->].
  - by rewrite run_handleClick_plain.
Qed.

Lemma handleClick_cancelled_or_empty_keeps_session_witness :
  exec (handleClick (addHotspot 1700000000500) shift_click None) annotated
    = annotated /\
  exec (handleClick (addHotspot 1700000000500) shift_click (Some "")) annotated
    = annotated.
Proof.
  split.
  - apply handleClick_cancelled_or_empty_keeps_session. left. reflexivity.
  - apply handleClick_cancelled_or_empty_keeps_session. right. reflexivity.
Defined.

(** C2 as stated fails: an answer made of one space is empty after
    trimming, and the click still creates a hotspot, labelled with it. *)
Lemma handleClick_blank_label_creates_hotspot :
  JS.trim " " = "" /\
  hotspots (exec (handleClick (addHotspot 1700000000500) shift_click
                    (Some " ")) loaded)
  = [{| id := "1700000000500"; position := (1%float, 2%float, 3%float);
        label := " " |}] /\
  hotspots loaded = [].
Proof. repeat split; vm_compute; reflexivity. Qed.

(** ** Hotspots need a model *)

Lemma hotspots_need_model_initial : hotspots_need_model initial.
Proof. by intros _. Qed.

Lemma handleFileUpload_keeps_invariant files0 created s :
  hotspots_need_model s ->
  hotspots_need_model (exec (handleFileUpload files0 created) s).
Proof.
  intros Inv. destruct files0 as [file|]; [|by rewrite exec_upload_nothing].
  unfold exec.
  destruct (JS.endsWith (JS.toLowerCase (name file)) ".glb") eqn:E.
  - destruct created as [url|].
    + rewrite run_upload_loaded by done. by intros _.
    + rewrite run_upload_failed by done. exact Inv.
  - rewrite run_upload_rejected by done. exact Inv.
Qed.

Lemma handleClick_keeps_invariant now event answer s :
  JS.truthy_or_null (modelUrl s) = true ->
  hotspots_need_model (exec (handleClick (addHotspot now) event answer) s).
Proof.
  intros Hurl. unfold exec, hotspots_need_model.
  destruct (shiftKey event) eqn:E.
  - rewrite run_handleClick_shift by done. simpl.
    destruct answer as [l|]; [destruct (JS.truthy l)|]; simpl; congruence.
  - rewrite run_handleClick_plain by done. simpl. congruence.
Qed.

Lemma step_keeps_invariant s e s' :
  hotspots_need_model s -> step s e = Some s' -> hotspots_need_model s'.
Proof.
  unfold step. intros Inv.
  destruct (enabled s e) eqn:En; [|done]. intros [= <-].
  destruct e as [files0 created|event answer now|i|]; simpl in *.
  - by apply handleFileUpload_keeps_invariant.
  - by apply handleClick_keeps_invariant.
  - rewrite exec_deleteHotspot. intros Hurl. simpl in *.
    by rewrite (Inv Hurl).
  - by rewrite exec_clearHotspots.
Qed.

Lemma reachable_hotspots_need_model s :
  reachable s -> hotspots_need_model s.
Proof.
  induction 1 as [|s e s' _ IH Hstep].
  - apply hotspots_need_model_initial.
  - by eapply step_keeps_invariant.
Qed.

Lemma replay_reachable es : forall s s',
  reachable s -> replay s es = Some s' -> reachable s'.
Proof.
  induction es as [|e es IH]; intros s s' Hs; simpl.
  - by intros [= <-].
  - destruct (step s e) as [s1|] eqn:E; [|done].
    apply IH. by eapply reachable_step.
Qed.

(** C3: in every session reached from the initial one through events the
    page offers (choosing a file, clicking the model, a delete button, the
    clear button), no model means no hotspots. *)
Theorem no_model_no_hotspots (s : Session) :
  reachable s -> modelUrl s = None -> hotspots s = [].
Proof.
  intros Hs Hnone. apply reachable_hotspots_need_model in Hs.
  apply Hs. by rewrite Hnone.
Qed.

Lemma no_model_no_hotspots_witness :
  let s := {| modelUrl := None; hotspots := []; isLoading := false;
              error := Some "Please select a .GLB file" |} in
  hotspots s = [].
Proof.
  intros s. apply no_model_no_hotspots; [|reflexivity].
  apply (replay_reachable
           [FileChosen (Some {| name := "notes.txt"; content := "" |}) None]
           initial s reachable_initial).
  reflexivity.
Defined.

(** The handler itself does not look at [modelUrl]: it is the page that
    offers no model to click while there is none. *)
Remark addHotspot_alone_ignores_model :
  let s := exec (addHotspot 1700000000000 at_1_2_3 "Engine") initial in
  modelUrl s = None /\ hotspots s = [engine].
Proof. split; vm_compute; reflexivity. Qed.

(** ** The file-name test *)

Lemma upper_case_spec c :
  (65 <=? nat_of_ascii c)%nat && (nat_of_ascii c <=? 90)%nat = true
  <-> upper_case c.
Proof.
  unfold upper_case.
  rewrite andb_true_iff, Nat.leb_le, Nat.leb_le. tauto.
Qed.

Lemma toLowerCase_char_upper c :
  upper_case c ->
  JS.toLowerCase_char c = ascii_of_nat (nat_of_ascii c + 32).
Proof.
  intros H. unfold JS.toLowerCase_char.
  apply upper_case_spec in H. by rewrite H.
Qed.

Lemma toLowerCase_char_other c :
  ~ upper_case c -> JS.toLowerCase_char c = c.
Proof.
  intros H. unfold JS.toLowerCase_char.
  destruct ((65 <=? nat_of_ascii c)%nat && (nat_of_ascii c <=? 90)%nat) eqn:E;
    [|done].
  by apply upper_case_spec in E.
Qed.

Lemma upper_case_dec c : upper_case c \/ ~ upper_case c.
Proof. unfold upper_case. lia. Qed.

Lemma nat_of_lowered c :
  upper_case c ->
  nat_of_ascii (JS.toLowerCase_char c) = (nat_of_ascii c + 32)%nat.
Proof.
  intros H. rewrite toLowerCase_char_upper by done.
  apply nat_ascii_embedding. unfold upper_case in H. lia.
Qed.

Lemma nat_of_ascii_inj c d : nat_of_ascii c = nat_of_ascii d -> c = d.
Proof.
  intros H. rewrite <- (ascii_nat_embedding c), <- (ascii_nat_embedding d).
  by rewrite H.
Qed.

Lemma toLowerCase_char_same c d :
  JS.toLowerCase_char c = JS.toLowerCase_char d <-> same_letter c d.
Proof.
  unfold same_letter. split.
  - intros H. apply (f_equal nat_of_ascii) in H.
    destruct (upper_case_dec c) as [Hc|Hc], (upper_case_dec d) as [Hd|Hd].
    + rewrite !nat_of_lowered in H by done.
      left. apply nat_of_ascii_inj. lia.
    + rewrite nat_of_lowered, (toLowerCase_char_other d) in H by done.
      right. left. split; [done|lia].
    + rewrite (toLowerCase_char_other c), nat_of_lowered in H by done.
      right. right. split; [done|lia].
    + rewrite !toLowerCase_char_other in H by done.
      left. by apply nat_of_ascii_inj.
  - intros [->|[[Hc Hd]|[Hd Hc]]]; [done|..]; apply nat_of_ascii_inj.
    + rewrite nat_of_lowered, toLowerCase_char_other; [lia| |done].
      unfold upper_case in *. lia.
    + rewrite (nat_of_lowered d), toLowerCase_char_other; [lia| |done].
      unfold upper_case in *. lia.
Qed.

Lemma toLowerCase_same s : forall t,
  JS.toLowerCase s = JS.toLowerCase t <-> same_ignoring_case s t.
Proof.
  induction s as [|c s IH]; intros [|d t]; simpl; split.
  - intros _. constructor.
  - done.
  - discriminate.
  - inversion 1.
  - discriminate.
  - inversion 1.
  - intros [= Hc Hs]. constructor.
    + by apply toLowerCase_char_same.
    + by apply IH.
  - inversion 1 as [|? ? ? ? Hc Hs]; subst. f_equal.
    + by apply toLowerCase_char_same.
    + by apply IH.
Qed.

Lemma append_String c a b : String c a +:+ b = String c (a +:+ b).
Proof. reflexivity. Qed.

Lemma append_empty b : "" +:+ b = b.
Proof. reflexivity. Qed.

Lemma toLowerCase_app a b :
  JS.toLowerCase (a +:+ b) = JS.toLowerCase a +:+ JS.toLowerCase b.
Proof.
  induction a as [|c a IH]; [done|].
  rewrite append_String. simpl. by rewrite IH.
Qed.

Lemma toLowerCase_split p : forall s q,
  JS.toLowerCase s = p +:+ q ->
  exists s1 s2, s = s1 +:+ s2 /\ JS.toLowerCase s1 = p /\ JS.toLowerCase s2 = q.
Proof.
  induction p as [|c p IH]; intros s q.
  - rewrite append_empty. intros H. by exists "", s.
  - rewrite append_String. destruct s as [|d s]; [done|]. simpl.
    intros [= Hc Hs].
    destruct (IH _ _ Hs) as (s1 & s2 & -> & H1 & H2).
    exists (String d s1), s2. rewrite append_String. simpl.
    by rewrite Hc, H1.
Qed.

Lemma substring_all t : substring 0 (String.length t) t = t.
Proof. induction t as [|c t IH]; simpl; [done|by rewrite IH]. Qed.

Lemma substring_after p t :
  substring (String.length p) (String.length t) (p +:+ t) = t.
Proof.
  induction p as [|c p IH]; [apply substring_all|].
  rewrite append_String. exact IH.
Qed.

Lemma substring_cut n : forall s,
  (n <= String.length s)%nat ->
  s = substring 0 n s +:+ substring n (String.length s - n) s.
Proof.
  induction n as [|n IH]; intros s Hn.
  - rewrite Nat.sub_0_r, substring_all. by destruct s.
  - destruct s as [|c s]; simpl in *; [lia|].
    rewrite append_String. f_equal. apply IH. lia.
Qed.

Lemma length_append a b :
  String.length (a +:+ b) = (String.length a + String.length b)%nat.
Proof.
  induction a as [|c a IH]; [done|].
  rewrite append_String. simpl. by rewrite IH.
Qed.

Lemma endsWith_spec s search :
  JS.endsWith s search = true <-> exists p, s = p +:+ search.
Proof.
  unfold JS.endsWith. split.
  - destruct (String.length search <=? String.length s)%nat eqn:E; [|done].
    apply Nat.leb_le in E. rewrite bool_decide_eq_true. intros H.
    exists (substring 0 (String.length s - String.length search) s).
    assert (String.length s - String.length search <= String.length s)%nat
      as Hcut by lia.
    apply substring_cut in Hcut.
    replace (String.length s - (String.length s - String.length search))%nat
      with (String.length search) in Hcut by lia.
    by rewrite H in Hcut.
  - intros [p ->]. rewrite length_append.
    replace (String.length search <=? String.length p + String.length search)%nat
      with true by (symmetry; apply Nat.leb_le; lia).
    rewrite bool_decide_eq_true.
    replace (String.length p + String.length search - String.length search)%nat
      with (String.length p) by lia.
    apply substring_after.
Qed.

Lemma accepted_spec fileName :
  accepted fileName = true <-> ends_with_ignoring_case fileName ".glb".
Proof.
  unfold accepted, ends_with_ignoring_case. rewrite endsWith_spec. split.
  - intros [p Hp]. apply toLowerCase_split in Hp as (stem & tail & -> & _ & Ht).
    exists stem, tail. split; [done|]. by apply toLowerCase_same.
  - intros (stem & tail & -> & Ht). apply toLowerCase_same in Ht.
    exists (JS.toLowerCase stem). by rewrite toLowerCase_app, Ht.
Qed.

Lemma rejected_spec fileName :
  accepted fileName = false <-> ~ ends_with_ignoring_case fileName ".glb".
Proof.
  rewrite <- accepted_spec. by destruct (accepted fileName).
Qed.

(** ** Choosing a file *)

(** C4: when the name of the chosen file does not end in [.glb] (in either
    case of each letter), the upload leaves [modelUrl], the hotspots and
    the loading flag as they were, sets the error message, and calls
    nothing outside the component. *)
Theorem rejected_file_only_sets_error (s : Session) (file : File)
    (created : option string) :
  ~ ends_with_ignoring_case (name file) ".glb" ->
  let w := run (handleFileUpload (Some file) created) s in
  modelUrl (session w) = modelUrl s /\
  hotspots (session w) = hotspots s /\
  isLoading (session w) = isLoading s /\
  error (session w) = Some "Please select a .GLB file" /\
  log w = [].
Proof.
  intros Hrej w. subst w. apply rejected_spec in Hrej.
  by rewrite run_upload_rejected.
Qed.

Lemma rejected_file_only_sets_error_witness :
  let w := run (handleFileUpload (Some model_gltf) (Some "blob:2")) annotated in
  modelUrl (session w) = Some "blob:1" /\
  hotspots (session w) = [engine] /\
  isLoading (session w) = false /\
  error (session w) = Some "Please select a .GLB file" /\
  log w = [].
Proof.
  apply (rejected_file_only_sets_error annotated model_gltf (Some "blob:2")).
  apply rejected_spec. reflexivity.
Defined.

(** C6: whatever the session held before, a file whose name passes the
    test and for which [URL.createObjectURL] returns leaves the hotspot
    collection empty (and the new URL as the model). *)
Theorem loaded_file_resets_hotspots (s : Session) (file : File)
    (url : string) :
  ends_with_ignoring_case (name file) ".glb" ->
  let s' := exec (handleFileUpload (Some file) (Some url)) s in
  hotspots s' = [] /\ modelUrl s' = Some url /\
  isLoading s' = false /\ error s' = None.
Proof.
  intros Hacc s'. subst s'. apply accepted_spec in Hacc.
  unfold exec. by rewrite run_upload_loaded.
Qed.

Lemma loaded_file_resets_hotspots_witness :
  hotspots annotated = [engine] /\
  let s' := exec (handleFileUpload (Some scene_glb) (Some "blob:2")) annotated in
  hotspots s' = [] /\ modelUrl s' = Some "blob:2" /\
  isLoading s' = false /\ error s' = None.
Proof.
  split; [reflexivity|].
  apply (loaded_file_resets_hotspots annotated scene_glb "blob:2").
  apply accepted_spec. reflexivity.
Defined.

Lemma attempted_iff_accepted file created s :
  CreateObjectURL file ∈ calls (handleFileUpload (Some file) created) s
  <-> accepted (name file) = true.
Proof.
  unfold calls. destruct (accepted (name file)) eqn:E; unfold accepted in E.
  - split; [done|intros _].
    destruct created as [url|].
    + rewrite run_upload_loaded by done. simpl.
      apply elem_of_app. right. apply list_elem_of_here.
    + rewrite run_upload_failed by done. simpl.
      apply elem_of_app. right. apply list_elem_of_here.
  - rewrite run_upload_rejected by done. simpl. split; [|done].
    by intros ?%elem_of_nil.
Qed.

(** C9: the upload goes on to load the file ([URL.createObjectURL] is
    called on it) exactly when its name ends with [.glb] compared without
    regard to case; nothing else about the file or the session is looked
    at.  [.GLB] and [.glb] both pass. *)
Theorem upload_tests_extension_only (s : Session) (file : File)
    (created : option string) :
  (accepted (name file) = true
     <-> ends_with_ignoring_case (name file) ".glb") /\
  (CreateObjectURL file ∈ calls (handleFileUpload (Some file) created) s
     <-> ends_with_ignoring_case (name file) ".glb") /\
  accepted ".GLB" = true /\ accepted ".glb" = true.
Proof.
  split; [apply accepted_spec|]. split; [|done].
  rewrite attempted_iff_accepted. apply accepted_spec.
Qed.

Example accepted_mixed_case : accepted "Engine Block.gLb" = true.
Proof. reflexivity. Qed.

Example rejected_other_extension : accepted "scene.gltf" = false.
Proof. reflexivity. Qed.

Example rejected_extension_inside : accepted "scene.glb.zip" = false.
Proof. reflexivity. Qed.

Example rejected_without_dot : accepted "glb" = false.
Proof. reflexivity. Qed.

(** ** Clicking the model *)

(** C7: a click without shift changes nothing and stops nothing, so the
    event goes on to the camera controls; a click with shift stops the
    propagation, asks for a label and adds a hotspot when the answer is
    truthy; which of the two happens, and which calls are made, is decided
    by [shiftKey] alone. *)
Theorem handleClick_dispatches_on_shiftKey (s : Session) (event : ClickEvent)
    (answer : option string) (now : Z) :
  let w := run (handleClick (addHotspot now) event answer) s in
  (shiftKey event = false ->
     session w = s /\ (StopPropagation ∉ log w) /\ log w = []) /\
  (shiftKey event = true ->
     log w = [StopPropagation; Prompt "Enter hotspot label:"] /\
     session w =
       match answer with
       | Some l =>
           if JS.truthy l then exec (addHotspot now (point event) l) s else s
       | None => s
       end) /\
  (forall s' event' answer' now',
     shiftKey event' = shiftKey event ->
     log (run (handleClick (addHotspot now') event' answer') s') = log w).
Proof.
  intros w. subst w. split; [|split].
  - intros E. rewrite run_handleClick_plain by done. simpl.
    split; [done|]. split; [|done]. by intros ?%elem_of_nil.
  - intros E. by rewrite run_handleClick_shift.
  - intros s' event' answer' now' E'.
    destruct (shiftKey event) eqn:E.
    + by rewrite !run_handleClick_shift.
    + by rewrite !run_handleClick_plain.
Qed.

Lemma handleClick_dispatches_on_shiftKey_witness :
  session (run (handleClick (addHotspot 1700000000500) plain_click
                  (Some "Wing")) annotated) = annotated /\
  log (run (handleClick (addHotspot 1700000000500) shift_click
              (Some "Wing")) annotated)
    = [StopPropagation; Prompt "Enter hotspot label:"].
Proof.
  split.
  - apply (handleClick_dispatches_on_shiftKey annotated plain_click
             (Some "Wing") 1700000000500). reflexivity.
  - apply (handleClick_dispatches_on_shiftKey annotated shift_click
             (Some "Wing") 1700000000500). reflexivity.
Defined.

(** ** Clearing *)

(** C8: [clearHotspots] leaves no hotspot, and calling it again, any number
    of times, gives the session the first call gave. *)
Theorem clearHotspots_empties_and_is_idempotent (s : Session) :
  hotspots (exec clearHotspots s) = [] /\
  exec clearHotspots (exec clearHotspots s) = exec clearHotspots s /\
  (forall n, Nat.iter (S n) (exec clearHotspots) s = exec clearHotspots s).
Proof.
  split; [done|]. split; [done|].
  induction n as [|n IH]; [done|].
  rewrite Nat.iter_succ, IH. done.
Qed.

(** ** Deleting a hotspot *)

Lemma deleteHotspot_hotspots i s :
  hotspots (exec (deleteHotspot i) s) = others i (hotspots s).
Proof. reflexivity. Qed.

Lemma others_absent i hs : i ∉ ids hs -> others i hs = hs.
Proof.
  unfold others, ids. induction hs as [|h hs IH]; [done|].
  rewrite fmap_cons, not_elem_of_cons. intros [Hne Hnin].
  rewrite filter_cons_True by done. by rewrite IH.
Qed.

Lemma others_gone i hs : i ∉ ids (others i hs).
Proof.
  unfold others, ids. intros (h & -> & Hin)%list_elem_of_fmap.
  apply list_elem_of_filter in Hin as [Hne _]. done.
Qed.

Lemma others_carrying_length i hs :
  (length (others i hs) + length (carrying i hs) = length hs)%nat.
Proof.
  unfold others, carrying. induction hs as [|h hs IH]; [done|].
  rewrite !filter_cons. destruct (decide (id h = i)) as [Heq|Hne].
  - rewrite decide_False by (by intros []). simpl. lia.
  - rewrite decide_True by done. simpl. lia.
Qed.

Lemma carrying_absent i hs : i ∉ ids hs -> carrying i hs = [].
Proof.
  unfold carrying, ids. induction hs as [|h hs IH]; [done|].
  rewrite fmap_cons, not_elem_of_cons. intros [Hne Hnin].
  rewrite filter_cons_False by done. by apply IH.
Qed.

Lemma carrying_present i hs : i ∈ ids hs -> (0 < length (carrying i hs))%nat.
Proof.
  unfold carrying, ids. induction hs as [|h hs IH].
  - by intros ?%elem_of_nil.
  - rewrite fmap_cons, elem_of_cons, filter_cons.
    destruct (decide (id h = i)) as [Heq|Hne]; simpl; [lia|].
    intros [Heq|Hin]; [done|by apply IH].
Qed.

Lemma carrying_unique i hs :
  NoDup (ids hs) -> i ∈ ids hs -> length (carrying i hs) = 1%nat.
Proof.
  unfold ids. induction hs as [|h hs IH].
  - by intros _ ?%elem_of_nil.
  - rewrite fmap_cons, NoDup_cons, elem_of_cons. intros [Hnin Hnd] Hin.
    unfold carrying. rewrite filter_cons.
    destruct (decide (id h = i)) as [Heq|Hne].
    + subst i. fold (carrying (id h) hs).
      by rewrite carrying_absent.
    + destruct Hin as [Heq|Hin]; [done|]. by apply IH.
Qed.

Lemma others_greatest i hs l :
  l `sublist_of` hs -> Forall (fun h => id h ≠ i) l ->
  l `sublist_of` others i hs.
Proof.
  unfold others. induction 1 as [|h l hs Hsub IH|h l hs Hsub IH]; intros Hall.
  - done.
  - apply Forall_cons in Hall as [Hne Hall].
    rewrite filter_cons_True by done. apply sublist_skip. by apply IH.
  - rewrite filter_cons. destruct (decide (id h ≠ i)).
    + apply sublist_cons. by apply IH.
    + by apply IH.
Qed.

(** C5, as the code has it: deleting an id that no hotspot carries leaves
    the session as it was; deleting an id that is present leaves no hotspot
    with that id, and the count drops by the number of hotspots that
    carried it, which is at least one, and exactly one when the ids of the
    collection are pairwise distinct. *)
Theorem deleteHotspot_removes_the_id (s : Session) (i : string) :
  let hs := hotspots s in
  let hs' := hotspots (exec (deleteHotspot i) s) in
  (i ∉ ids hs -> exec (deleteHotspot i) s = s) /\
  (i ∈ ids hs ->
     (i ∉ ids hs') /\
     (length hs' + length (carrying i hs) = length hs)%nat /\
     (length hs' < length hs)%nat) /\
  (i ∈ ids hs -> NoDup (ids hs) -> S (length hs') = length hs).
Proof.
  intros hs hs'. subst hs hs'. rewrite deleteHotspot_hotspots.
  pose proof (others_carrying_length i (hotspots s)) as Hlen.
  split; [|split].
  - intros Hnin. rewrite exec_deleteHotspot.
    fold (others i (hotspots s)). rewrite others_absent by done.
    by destruct s.
  - intros Hin. split; [apply others_gone|]. split; [done|].
    apply carrying_present in Hin. lia.
  - intros Hin Hnd. rewrite (carrying_unique i) in Hlen by done. lia.
Qed.

Lemma deleteHotspot_removes_the_id_witness :
  exec (deleteHotspot "42") two_hotspots = two_hotspots /\
  S (length (hotspots (exec (deleteHotspot "1700000000500") two_hotspots)))
    = 2%nat /\
  "1700000000500" ∉ ids (hotspots
    (exec (deleteHotspot "1700000000500") two_hotspots)).
Proof.
  split; [|split].
  - apply (deleteHotspot_removes_the_id two_hotspots "42").
    intros Hin. by repeat (apply elem_of_cons in Hin as [Hin|Hin]; [done|]);
      apply elem_of_nil in Hin.
  - apply (deleteHotspot_removes_the_id two_hotspots "1700000000500").
    + apply elem_of_cons. right. apply list_elem_of_here.
    + change (NoDup ["1700000000000"; "1700000000500"]).
      apply NoDup_cons. split; [|apply NoDup_singleton].
      intros Hin%list_elem_of_singleton. discriminate.
  - apply (deleteHotspot_removes_the_id two_hotspots "1700000000500").
    apply elem_of_cons. right. apply list_elem_of_here.
Defined.

(** C5 as stated fails: when two hotspots were created within the same
    millisecond, deleting their id removes both. *)
Lemma deleteHotspot_repeated_id_drops_two :
  replay loaded
    [ModelClicked shift_click (Some "Engine") 1700000000000;
     ModelClicked shift_click (Some "Wing") 1700000000000] = Some twins /\
  "1700000000000" ∈ ids (hotspots twins) /\
  length (hotspots twins) = 2%nat /\
  length (hotspots (exec (deleteHotspot "1700000000000") twins)) = 0%nat.
Proof.
  split; [vm_compute; reflexivity|]. split; [apply list_elem_of_here|].
  split; vm_compute; reflexivity.
Qed.

(** C10: [deleteHotspot] touches nothing but the hotspot collection; what
    is left of it carries the id nowhere, is a subsequence of the old
    collection (same records, same order), and contains every subsequence
    of the old collection that avoids the id: every hotspot with the id is
    gone, however many there were, and every other one stays in place. *)
Theorem deleteHotspot_keeps_all_others_in_order (s : Session) (i : string) :
  let hs := hotspots s in
  let s' := exec (deleteHotspot i) s in
  Forall (fun h => id h ≠ i) (hotspots s') /\
  hotspots s' `sublist_of` hs /\
  (forall l, l `sublist_of` hs -> Forall (fun h => id h ≠ i) l ->
             l `sublist_of` hotspots s') /\
  (forall front h back, hs = (front ++ h :: back)%list ->
     hotspots s' =
       if decide (id h = i) then (others i front ++ others i back)%list
       else (others i front ++ h :: others i back)%list) /\
  modelUrl s' = modelUrl s /\ isLoading s' = isLoading s /\
  error s' = error s.
Proof.
  intros hs s'. subst hs s'. rewrite deleteHotspot_hotspots.
  split; [|split; [|split; [|split]]].
  - apply Forall_forall. intros h Hin.
    by apply list_elem_of_filter in Hin as [Hne _].
  - apply sublist_filter.
  - intros l. apply others_greatest.
  - intros front h back ->. unfold others.
    rewrite filter_app, filter_cons.
    destruct (decide (id h = i)) as [Heq|Hne].
    + by rewrite decide_False by (by intros []).
    + by rewrite decide_True.
  - done.
Qed.

Lemma deleteHotspot_keeps_all_others_in_order_witness :
  hotspots (exec (deleteHotspot "1700000000000")
    {| modelUrl := Some "blob:1"; hotspots := [engine; wing; engine_again];
       isLoading := false; error := None |}) = [wing].
Proof.
  pose proof (deleteHotspot_keeps_all_others_in_order
    {| modelUrl := Some "blob:1"; hotspots := [engine; wing; engine_again];
       isLoading := false; error := None |} "1700000000000") as H.
  destruct H as (_ & _ & _ & H & _).
  exact (H [engine] wing [engine_again] eq_refl).
Defined.

(** ** Runs in which the clock moves on between clicks *)

(** A step that was taken: the event was enabled, and the new session is
    what its handler made of the old one. *)
Ltac taken H :=
  unfold step in H;
  destruct (enabled _ _); [injection H as <-|discriminate H].

Lemma ids_others_sublist i hs : ids (others i hs) `sublist_of` ids hs.
Proof. unfold ids. apply fmap_sublist, sublist_filter. Qed.

Lemma distinct_and_minted_others t i s :
  distinct_and_minted_by t s ->
  distinct_and_minted_by t (exec (deleteHotspot i) s).
Proof.
  intros [Hnd Hall]. unfold distinct_and_minted_by.
  rewrite deleteHotspot_hotspots. split.
  - eapply sublist_NoDup; [exact Hnd|apply ids_others_sublist].
  - rewrite Forall_forall in *. intros j Hj. apply Hall.
    eapply elem_of_sublist; [exact Hj|apply ids_others_sublist].
Qed.

Lemma distinct_and_minted_upload t files0 created s :
  distinct_and_minted_by t s ->
  distinct_and_minted_by t (exec (handleFileUpload files0 created) s).
Proof.
  intros Inv. destruct files0 as [file|]; [|by rewrite exec_upload_nothing].
  unfold exec.
  destruct (JS.endsWith (JS.toLowerCase (name file)) ".glb") eqn:E.
  - destruct created as [url|].
    + rewrite run_upload_loaded by done. split; constructor.
    + rewrite run_upload_failed by done. exact Inv.
  - rewrite run_upload_rejected by done. exact Inv.
Qed.

Lemma distinct_and_minted_add t now p l s :
  t < now -> distinct_and_minted_by t s ->
  distinct_and_minted_by now (exec (addHotspot now p l) s).
Proof.
  intros Hlt [Hnd Hall]. unfold distinct_and_minted_by, ids in *.
  rewrite addHotspot_hotspots, fmap_app. simpl. split.
  - apply NoDup_app. split; [done|]. split; [|apply NoDup_singleton].
    intros j Hj ->%list_elem_of_singleton.
    rewrite Forall_forall in Hall. destruct (Hall _ Hj) as (u & Hu & Heq).
    apply toString_inj in Heq. lia.
  - apply Forall_app. split.
    + eapply Forall_impl; [exact Hall|].
      intros j (u & Hu & ->). exists u. split; [lia|done].
    + repeat constructor. exists now. split; [lia|done].
Qed.

Lemma distinct_and_minted_later t t' s :
  t <= t' -> distinct_and_minted_by t s -> distinct_and_minted_by t' s.
Proof.
  intros Hle [Hnd Hall]. split; [done|].
  eapply Forall_impl; [exact Hall|].
  intros j (u & Hu & ->). exists u. split; [lia|done].
Qed.

(** As long as no two clicks read the same millisecond (and the clock does
    not step back), the ids of a session are pairwise distinct. *)
Lemma ticking_ids_distinct t s :
  ticking t s -> distinct_and_minted_by t s.
Proof.
  induction 1 as [t|t s event answer now s' _ IH Hlt Hstep
                  |t s files0 created s' _ IH Hstep
                  |t s i s' _ IH Hstep|t s s' _ IH Hstep];
    [|taken Hstep..].
  - split; constructor.
  - assert (distinct_and_minted_by now s) as IH'
      by (apply (distinct_and_minted_later t); [lia|done]).
    simpl. unfold exec. destruct (shiftKey event) eqn:E.
    + rewrite run_handleClick_shift by done. simpl.
      destruct answer as [l|]; [destruct (JS.truthy l)|]; [|done..].
      by apply (distinct_and_minted_add t).
    + by rewrite run_handleClick_plain.
  - by apply distinct_and_minted_upload.
  - by apply distinct_and_minted_others.
  - rewrite exec_clearHotspots. split; constructor.
Qed.

(** ** The other branches of the file handler *)

(** A load that fails ([URL.createObjectURL] throws on a file whose name
    passed): the model and the hotspots stay, the loading flag is off, the
    error says so and is logged; but the URL that stays in [modelUrl] has
    already been revoked. *)
Theorem failed_load_keeps_model_but_revokes_it (s : Session) (file : File) :
  accepted (name file) = true ->
  let w := run (handleFileUpload (Some file) None) s in
  modelUrl (session w) = modelUrl s /\
  hotspots (session w) = hotspots s /\
  isLoading (session w) = false /\
  error (session w) = Some "Failed to load model" /\
  log w = (revocation s ++ [CreateObjectURL file; ConsoleError])%list /\
  (forall url, modelUrl s = Some url -> JS.truthy url = true ->
     RevokeObjectURL url ∈ log w /\ modelUrl (session w) = Some url).
Proof.
  intros Hacc w. subst w. unfold accepted in Hacc.
  rewrite run_upload_failed by done. simpl.
  repeat (split; [done|]).
  intros url Hurl Htruthy. split; [|done].
  unfold revocation. rewrite Hurl, Htruthy. apply list_elem_of_here.
Qed.

Lemma failed_load_keeps_model_but_revokes_it_witness :
  let w := run (handleFileUpload (Some scene_glb) None) annotated in
  hotspots (session w) = [engine] /\
  modelUrl (session w) = Some "blob:1" /\
  RevokeObjectURL "blob:1" ∈ log w.
Proof.
  pose proof (failed_load_keeps_model_but_revokes_it annotated scene_glb
                eq_refl) as (_ & Hhs & _ & _ & _ & Hrev).
  split; [exact Hhs|].
  destruct (Hrev "blob:1" eq_refl eq_refl) as [Hin Hurl].
  split; [exact Hurl|exact Hin].
Defined.

(** The file handler changes the model or the hotspots in one case only: a
    file was chosen, its name passed and [URL.createObjectURL] returned;
    the session is then the new URL with no hotspot, no error and the
    loading flag off. *)
Theorem upload_changes_model_only_on_success (s : Session)
    (files0 : option File) (created : option string) :
  let s' := exec (handleFileUpload files0 created) s in
  modelUrl s' ≠ modelUrl s \/ hotspots s' ≠ hotspots s ->
  exists file url,
    files0 = Some file /\ accepted (name file) = true /\
    created = Some url /\
    s' = {| modelUrl := Some url; hotspots := []; isLoading := false;
            error := None |}.
Proof.
  intros s'. subst s'. unfold exec.
  destruct files0 as [file|].
  - destruct (accepted (name file)) eqn:E; unfold accepted in E.
    + destruct created as [url|].
      * intros _. exists file, url. by rewrite run_upload_loaded.
      * rewrite run_upload_failed by done. simpl. intros [[]|[]]; done.
    + rewrite run_upload_rejected by done. simpl. intros [[]|[]]; done.
  - fold (exec (handleFileUpload None created) s).
    rewrite exec_upload_nothing. intros [[]|[]]; done.
Qed.

Lemma upload_changes_model_only_on_success_witness :
  exists file url,
    Some scene_glb = Some file /\ accepted (name file) = true /\
    Some "blob:2" = Some url /\
    exec (handleFileUpload (Some scene_glb) (Some "blob:2")) annotated =
    {| modelUrl := Some url; hotspots := []; isLoading := false;
       error := None |}.
Proof.
  apply (upload_changes_model_only_on_success annotated (Some scene_glb)
           (Some "blob:2")).
  left. discriminate.
Defined.

(** ** What holds between two events *)

Lemma step_keeps_settled s e s' :
  settled s -> step s e = Some s' -> settled s'.
Proof.
  intros [Hld Her] Hstep. taken Hstep.
  destruct e as [files0 created|event answer now|i|]; cbn [handle].
  - destruct files0 as [file|]; [|by rewrite exec_upload_nothing].
    unfold exec.
    destruct (JS.endsWith (JS.toLowerCase (name file)) ".glb") eqn:E.
    + destruct created as [url|].
      * rewrite run_upload_loaded by done. split; [done|by left].
      * rewrite run_upload_failed by done. split; [done|]. right. by right.
    + rewrite run_upload_rejected by done. split; [done|]. right. by left.
  - unfold exec. destruct (shiftKey event) eqn:E.
    + rewrite run_handleClick_shift by done. simpl.
      by destruct answer as [l|]; [destruct (JS.truthy l)|].
    + by rewrite run_handleClick_plain.
  - by rewrite exec_deleteHotspot.
  - by rewrite exec_clearHotspots.
Qed.

Lemma reachable_settled s : reachable s -> settled s.
Proof.
  induction 1 as [|s e s' _ IH Hstep].
  - split; [done|by left].
  - by eapply step_keeps_settled.
Qed.

(** Between two events the loading flag is off: the handler that raises it
    lowers it before it returns.  The import button is therefore never
    shown disabled, and never reads "Loading...". *)
Theorem never_left_loading (s : Session) :
  reachable s ->
  isLoading s = false /\
  import_disabled (render s) = false /\
  import_text (render s) = "Import GLB Model".
Proof.
  intros [Hld _]%reachable_settled. simpl. by rewrite Hld.
Qed.

Lemma never_left_loading_witness :
  isLoading annotated = false /\
  import_disabled (render annotated) = false /\
  import_text (render annotated) = "Import GLB Model".
Proof.
  apply never_left_loading.
  apply (replay_reachable
           [FileChosen (Some scene_glb) (Some "blob:1");
            ModelClicked shift_click (Some "Engine") 1700000000000]
           initial annotated reachable_initial).
  vm_compute. reflexivity.
Defined.

(** The error cell only ever holds one of the two messages of the file
    handler; both are non-empty, so the banner is on the page exactly when
    the cell is set, with the message as it is. *)
Theorem error_is_one_of_two_messages (s : Session) :
  reachable s ->
  known_error (error s) /\ error_banner (render s) = error s.
Proof.
  intros [_ Her]%reachable_settled. split; [done|]. simpl.
  by destruct Her as [-> | [-> | ->]].
Qed.

Lemma error_is_one_of_two_messages_witness :
  let s := {| modelUrl := None; hotspots := []; isLoading := false;
              error := Some "Please select a .GLB file" |} in
  known_error (error s) /\ error_banner (render s) = error s.
Proof.
  intros s. apply error_is_one_of_two_messages.
  apply (replay_reachable [FileChosen (Some model_gltf) None]
           initial s reachable_initial).
  reflexivity.
Defined.

Lemma step_frame s e s' :
  step s e = Some s' ->
  (forall files0 created, e ≠ FileChosen files0 created) ->
  modelUrl s' = modelUrl s /\ isLoading s' = isLoading s /\
  error s' = error s.
Proof.
  intros Hstep Hne. taken Hstep.
  destruct e as [files0 created|event answer now|i|]; cbn [handle].
  - by destruct (Hne files0 created).
  - unfold exec. destruct (shiftKey event) eqn:E.
    + rewrite run_handleClick_shift by done. simpl.
      by destruct answer as [l|]; [destruct (JS.truthy l)|].
    + by rewrite run_handleClick_plain.
  - by rewrite exec_deleteHotspot.
  - by rewrite exec_clearHotspots.
Qed.

(** A click on the model, a delete button or the clear button leaves the
    model, the loading flag and the error message alone: an error stays on
    the page until another file is chosen. *)
Theorem only_files_touch_model_and_error (s : Session) (e : Event)
    (s' : Session) :
  step s e = Some s' ->
  (forall files0 created, e ≠ FileChosen files0 created) ->
  modelUrl s' = modelUrl s /\ isLoading s' = isLoading s /\
  error s' = error s.
Proof. apply step_frame. Qed.

Lemma only_files_touch_model_and_error_witness :
  let s' := {| modelUrl := Some "blob:1"; hotspots := [engine];
               isLoading := false;
               error := Some "Please select a .GLB file" |} in
  modelUrl s' = modelUrl loaded_then_rejected /\
  isLoading s' = isLoading loaded_then_rejected /\
  error s' = error loaded_then_rejected.
Proof.
  intros s'.
  apply (only_files_touch_model_and_error loaded_then_rejected
           (ModelClicked shift_click (Some "Engine") 1700000000000) s').
  - vm_compute. reflexivity.
  - discriminate.
Defined.

(** ** The model stays *)

Lemma step_keeps_model s e s' :
  step s e = Some s' -> is_Some (modelUrl s) -> is_Some (modelUrl s').
Proof.
  intros Hstep Hsome.
  destruct e as [files0 created|event answer now|i|];
    try (by apply step_frame in Hstep as (-> & _ & _)).
  taken Hstep. cbn [handle].
  destruct files0 as [file|]; [|by rewrite exec_upload_nothing].
  unfold exec.
  destruct (JS.endsWith (JS.toLowerCase (name file)) ".glb") eqn:E.
  - destruct created as [url|].
    + rewrite run_upload_loaded by done. by eexists.
    + by rewrite run_upload_failed.
  - by rewrite run_upload_rejected.
Qed.

(** Once a model is on the page no list of events takes it away again:
    [modelUrl] never returns to [null] (a failed or rejected choice keeps
    the model there was). *)
Theorem model_once_set_stays_set (es : list Event) (s s' : Session) :
  replay s es = Some s' -> is_Some (modelUrl s) -> is_Some (modelUrl s').
Proof.
  revert s. induction es as [|e es IH]; intros s; simpl.
  - by intros [= <-].
  - destruct (step s e) as [s1|] eqn:E; [|done].
    intros Hrest Hsome. apply (IH s1); [done|].
    by eapply step_keeps_model.
Qed.

Lemma model_once_set_stays_set_witness :
  is_Some (modelUrl
    {| modelUrl := Some "blob:1"; hotspots := [];
       isLoading := false; error := Some "Failed to load model" |}).
Proof.
  apply (model_once_set_stays_set
           [FileChosen (Some model_gltf) None; ClearClicked;
            FileChosen (Some scene_glb) None]
           annotated).
  - vm_compute. reflexivity.
  - by eexists.
Defined.

(** ** How the hotspot operations compose *)

Lemma others_others i j hs :
  others i (others j hs) = filter (fun h => id h ≠ i /\ id h ≠ j) hs.
Proof. unfold others. apply list_filter_filter. Qed.

(** Deleting an id twice is deleting it once; two deletions can be done in
    either order; deleting from a cleared collection, or clearing after a
    deletion, is clearing. *)
Theorem deleteHotspot_composes (s : Session) (i j : string) :
  exec (deleteHotspot i) (exec (deleteHotspot i) s)
    = exec (deleteHotspot i) s /\
  exec (deleteHotspot i) (exec (deleteHotspot j) s)
    = exec (deleteHotspot j) (exec (deleteHotspot i) s) /\
  exec (deleteHotspot i) (exec clearHotspots s) = exec clearHotspots s /\
  exec clearHotspots (exec (deleteHotspot i) s) = exec clearHotspots s.
Proof.
  rewrite !exec_deleteHotspot, !exec_clearHotspots. simpl.
  fold (others i (hotspots s)) (others j (hotspots s)).
  fold (others i (others i (hotspots s))).
  fold (others i (others j (hotspots s))).
  fold (others j (others i (hotspots s))).
  rewrite !others_others.
  split; [|split; [|done]]; f_equal.
  - apply list_filter_iff. tauto.
  - apply list_filter_iff. tauto.
Qed.

(** Adding a hotspot and deleting its id gives back the session there was,
    when no older hotspot carried that id; in general it leaves the older
    hotspots that do not carry it. *)
Theorem add_then_delete_restores (s : Session) (now : Z) (p : Vector3)
    (l : string) :
  let s' := exec (deleteHotspot (JS.toString now))
                 (exec (addHotspot now p l) s) in
  hotspots s' = others (JS.toString now) (hotspots s) /\
  (JS.toString now ∉ ids (hotspots s) -> s' = s).
Proof.
  intros s'. subst s'. rewrite exec_deleteHotspot, exec_addHotspot. simpl.
  rewrite filter_app, filter_cons_False by (by intros []).
  rewrite filter_nil, app_nil_r. fold (others (JS.toString now) (hotspots s)).
  split; [done|].
  intros Hfresh. rewrite others_absent by done. by destruct s.
Qed.

Lemma add_then_delete_restores_witness :
  exec (deleteHotspot "1700000000500")
       (exec (addHotspot 1700000000500 at_1_2_3 "Wing") annotated)
  = annotated.
Proof.
  apply (add_then_delete_restores annotated 1700000000500 at_1_2_3 "Wing").
  intros Hin. apply list_elem_of_singleton in Hin. discriminate Hin.
Defined.

(** ** Where hotspots come from *)

Lemma truthy_nonempty l : JS.truthy l = true -> l ≠ "".
Proof. by destruct l. Qed.

Lemma step_keeps_made_by_click s e s' :
  Forall made_by_click (hotspots s) -> step s e = Some s' ->
  Forall made_by_click (hotspots s').
Proof.
  intros Hall Hstep. taken Hstep.
  destruct e as [files0 created|event answer now|i|]; cbn [handle].
  - destruct files0 as [file|]; [|by rewrite exec_upload_nothing].
    unfold exec.
    destruct (JS.endsWith (JS.toLowerCase (name file)) ".glb") eqn:E.
    + destruct created as [url|].
      * rewrite run_upload_loaded by done. constructor.
      * by rewrite run_upload_failed.
    + by rewrite run_upload_rejected.
  - unfold exec. destruct (shiftKey event) eqn:E.
    + rewrite run_handleClick_shift by done. simpl.
      destruct answer as [l|]; [destruct (JS.truthy l) eqn:El|]; [|done..].
      rewrite addHotspot_hotspots. apply Forall_app. split; [done|].
      repeat constructor; simpl; [by apply truthy_nonempty|by exists now].
    + by rewrite run_handleClick_plain.
  - rewrite deleteHotspot_hotspots. unfold others.
    rewrite Forall_forall in *. intros h Hin.
    apply list_elem_of_filter in Hin as [_ Hin]. by apply Hall.
  - rewrite exec_clearHotspots. constructor.
Qed.

(** Every hotspot of a session the page can be in was made by a
    shift-click: its label is not the empty string (the click handler adds
    nothing on an empty answer) and its id is the decimal rendering of a
    clock reading. *)
Theorem hotspots_are_made_by_clicks (s : Session) :
  reachable s -> Forall made_by_click (hotspots s).
Proof.
  induction 1 as [|s e s' _ IH Hstep].
  - constructor.
  - by eapply step_keeps_made_by_click.
Qed.

Lemma hotspots_are_made_by_clicks_witness :
  Forall made_by_click [engine].
Proof.
  apply (hotspots_are_made_by_clicks annotated).
  apply (replay_reachable
           [FileChosen (Some scene_glb) (Some "blob:1");
            ModelClicked shift_click (Some "Engine") 1700000000000]
           initial annotated reachable_initial).
  vm_compute. reflexivity.
Defined.

(** ** Releasing object URLs *)

Lemma unmount_current s url :
  modelUrl s = Some url -> JS.truthy url = true ->
  unmount s = [RevokeObjectURL url].
Proof.
  intros Hurl Htruthy. unfold unmount, calls, run, cleanup.
  by rewrite Hurl, Htruthy.
Qed.

Lemma commit_changed s s' url :
  modelUrl s = Some url -> JS.truthy url = true ->
  modelUrl s' ≠ Some url ->
  commit s s' = [RevokeObjectURL url].
Proof.
  intros Hurl Htruthy Hne. unfold commit.
  rewrite decide_False by congruence.
  fold (unmount s). by apply unmount_current.
Qed.

Lemma lifetime_revokes_current es : forall s s' l url,
  modelUrl s = Some url -> JS.truthy url = true ->
  lifetime s es = Some (s', l) ->
  RevokeObjectURL url ∈ (l ++ unmount s')%list.
Proof.
  induction es as [|e es IH]; intros s s' l url Hurl Htruthy; simpl.
  - intros [= <- <-]. rewrite (unmount_current s url) by done.
    apply list_elem_of_here.
  - destruct (enabled s e); [|done].
    destruct (lifetime (session (run (handle e) s)) es)
      as [[s1 l1]|] eqn:Hrest; [|done].
    intros [= <- <-]. rewrite <- !app_assoc.
    apply elem_of_app. right.
    destruct (decide (modelUrl (session (run (handle e) s)) = Some url))
      as [Hsame|Hdiff].
    + apply elem_of_app. right. by eapply IH.
    + apply elem_of_app. left.
      rewrite (commit_changed s _ url) by done. apply list_elem_of_here.
Qed.

(** No object URL is leaked: every URL that a chosen file installs as
    [modelUrl] has been revoked by the time the component is unmounted,
    whatever events came after it, be it by the next upload, by the effect
    when [modelUrl] changed, or by the unmount itself. *)
Theorem every_installed_url_is_revoked (es : list Event) (s s' : Session)
    (l : list Effect) (url : string) :
  lifetime s es = Some (s', l) ->
  Exists (installs url) es ->
  JS.truthy url = true ->
  RevokeObjectURL url ∈ (l ++ unmount s')%list.
Proof.
  revert s l. induction es as [|e es IH]; intros s l Hlife Hex Htruthy.
  - by apply Exists_nil in Hex.
  - simpl in Hlife. destruct (enabled s e); [|done].
    destruct (lifetime (session (run (handle e) s)) es)
      as [[s1 l1]|] eqn:Hrest; [|done].
    injection Hlife as <- <-. rewrite <- !app_assoc.
    apply elem_of_app. right. apply elem_of_app. right.
    apply Exists_cons in Hex as [(file & -> & Hacc)|Hlater].
    + eapply lifetime_revokes_current; [|done|exact Hrest].
      cbn [handle]. unfold accepted in Hacc.
      by rewrite run_upload_loaded.
    + by eapply IH.
Qed.

Lemma every_installed_url_is_revoked_witness :
  RevokeObjectURL "blob:1" ∈
    ([CreateObjectURL scene_glb; StopPropagation;
      Prompt "Enter hotspot label:"] ++ unmount annotated)%list.
Proof.
  apply (every_installed_url_is_revoked
           [FileChosen (Some scene_glb) (Some "blob:1");
            ModelClicked shift_click (Some "Engine") 1700000000000]
           initial annotated).
  - vm_compute. reflexivity.
  - apply Exists_cons_hd. exists scene_glb. split; reflexivity.
  - reflexivity.
Defined.

(** When a load replaces a model by another one, the old URL is revoked
    twice: by the file handler before it creates the new URL, and again by
    the cleanup of the effect once [modelUrl] has changed. *)
Theorem replaced_url_is_revoked_twice (s : Session) (file : File)
    (url old : string) :
  modelUrl s = Some old -> JS.truthy old = true ->
  accepted (name file) = true -> url ≠ old ->
  lifetime s [FileChosen (Some file) (Some url)] =
  Some ({| modelUrl := Some url; hotspots := []; isLoading := false;
           error := None |},
        [RevokeObjectURL old; CreateObjectURL file; RevokeObjectURL old]).
Proof.
  intros Hold Htruthy Hacc Hne. unfold accepted in Hacc.
  cbn [lifetime enabled handle].
  rewrite run_upload_loaded by done. cbn [session log].
  rewrite (commit_changed s _ old) by (simpl; congruence).
  unfold revocation. by rewrite Hold, Htruthy.
Qed.

Lemma replaced_url_is_revoked_twice_witness :
  lifetime annotated [FileChosen (Some scene_glb) (Some "blob:2")] =
  Some ({| modelUrl := Some "blob:2"; hotspots := []; isLoading := false;
           error := None |},
        [RevokeObjectURL "blob:1"; CreateObjectURL scene_glb;
         RevokeObjectURL "blob:1"]).
Proof.
  apply (replaced_url_is_revoked_twice annotated scene_glb "blob:2" "blob:1").
  - reflexivity.
  - reflexivity.
  - reflexivity.
  - discriminate.
Defined.

(** ** What is on the page *)

Lemma rows_keys hs :
  row_key <$>
    ((fun hotspot =>
        {| row_key := id hotspot; row_label := label hotspot;
           row_onClick := deleteHotspot (id hotspot) |}) <$> hs) = ids hs.
Proof. unfold ids. by rewrite <- list_fmap_compose. Qed.

Lemma render_with_hotspots s :
  hotspots_need_model s -> hotspots s ≠ [] ->
  JS.truthy_or_null (modelUrl s) = true /\
  (0 <? length (hotspots s))%nat = true.
Proof.
  intros Inv Hne. split.
  - destruct (JS.truthy_or_null (modelUrl s)) eqn:E; [done|].
    by destruct Hne; apply Inv.
  - apply Nat.ltb_lt. destruct (hotspots s); [done|simpl; lia].
Qed.

(** Every hotspot of a session the page can be in is shown twice, as a
    marker in the viewport and as a row of the list, in the order of the
    collection, with its id as key and its own label and position; the
    count on the clear button and the count heading the list are both the
    number of hotspots.  (The list is never shown over the placeholder.) *)
Theorem hotspots_are_all_on_the_page (s : Session) :
  reachable s -> hotspots s ≠ [] ->
  exists scene rows,
    viewport (render s) = Some scene /\
    hotspot_list (render s) = Some (length (hotspots s), rows) /\
    clear_button (render s) = Some (length (hotspots s)) /\
    fst <$> scene_markers scene = ids (hotspots s) /\
    (props_label ∘ snd) <$> scene_markers scene = label <$> hotspots s /\
    (props_position ∘ snd) <$> scene_markers scene
      = position <$> hotspots s /\
    row_key <$> rows = ids (hotspots s) /\
    row_label <$> rows = label <$> hotspots s.
Proof.
  intros Hs Hne. apply reachable_hotspots_need_model in Hs.
  destruct (render_with_hotspots s Hs Hne) as [Hurl Hlen].
  unfold render, Scene. cbn [viewport hotspot_list clear_button].
  rewrite Hurl, Hlen. cbn [negb].
  eexists _, _. split; [done|]. split; [done|]. split; [done|].
  cbn [scene_markers]. unfold ids.
  by rewrite <- !list_fmap_compose.
Qed.

Lemma hotspots_are_all_on_the_page_witness :
  exists scene rows,
    viewport (render two_hotspots) = Some scene /\
    hotspot_list (render two_hotspots) = Some (2%nat, rows) /\
    clear_button (render two_hotspots) = Some 2%nat /\
    fst <$> scene_markers scene = ["1700000000000"; "1700000000500"] /\
    (props_label ∘ snd) <$> scene_markers scene = ["Engine"; "Wing"] /\
    (props_position ∘ snd) <$> scene_markers scene
      = position <$> [engine; wing] /\
    row_key <$> rows = ["1700000000000"; "1700000000500"] /\
    row_label <$> rows = ["Engine"; "Wing"].
Proof.
  apply (hotspots_are_all_on_the_page two_hotspots); [|discriminate].
  apply (replay_reachable
           [FileChosen (Some scene_glb) (Some "blob:1");
            ModelClicked shift_click (Some "Engine") 1700000000000;
            ModelClicked shift_click (Some "Wing") 1700000000500]
           initial two_hotspots reachable_initial).
  vm_compute. reflexivity.
Defined.

(** Pressing the button of a row of the list deletes by that row's key: the
    button is one the page offers, the key is on no hotspot afterwards, and
    the collection is shorter. *)
Theorem every_row_button_deletes_its_row (s : Session) (n : nat)
    (rows : list RowView) (row : RowView) :
  hotspot_list (render s) = Some (n, rows) -> row ∈ rows ->
  let s' := exec (row_onClick row) s in
  enabled s (DeleteClicked (row_key row)) = true /\
  step s (DeleteClicked (row_key row)) = Some s' /\
  (row_key row ∉ ids (hotspots s')) /\
  (length (hotspots s') < length (hotspots s))%nat.
Proof.
  cbn [render hotspot_list].
  destruct (0 <? length (hotspots s))%nat; [|done].
  intros [= <- <-] (h & -> & Hin)%list_elem_of_fmap. cbn [row_key row_onClick].
  assert (id h ∈ ids (hotspots s)) as Hid by by apply list_elem_of_fmap_2.
  assert (enabled s (DeleteClicked (id h)) = true) as Hen
    by by apply bool_decide_eq_true.
  split; [done|]. split; [unfold step; by rewrite Hen|].
  rewrite deleteHotspot_hotspots. split; [apply others_gone|].
  pose proof (others_carrying_length (id h) (hotspots s)).
  pose proof (carrying_present (id h) (hotspots s) Hid). lia.
Qed.

Lemma every_row_button_deletes_its_row_witness :
  let row := {| row_key := "1700000000500"; row_label := "Wing";
                row_onClick := deleteHotspot "1700000000500" |} in
  step two_hotspots (DeleteClicked "1700000000500")
    = Some (exec (row_onClick row) two_hotspots) /\
  (length (hotspots (exec (row_onClick row) two_hotspots)) < 2)%nat.
Proof.
  intros row.
  destruct (every_row_button_deletes_its_row two_hotspots 2
    [{| row_key := "1700000000000"; row_label := "Engine";
        row_onClick := deleteHotspot "1700000000000" |}; row] row eq_refl)
    as (_ & Hstep & _ & Hlen).
  - apply elem_of_cons. right. apply list_elem_of_here.
  - split; [exact Hstep|exact Hlen].
Defined.

(** The button of a marker stops the click from going further (so that it
    does not reach the click handler of the model) and then deletes by the
    marker's key; the session it leaves is the one the row button of the
    same hotspot leaves, whether the marker is hovered or not. *)
Theorem marker_button_stops_and_deletes (s : Session) (scene : SceneView)
    (key : string) (props : HotspotProps) (hovered : bool) :
  viewport (render s) = Some scene ->
  (key, props) ∈ scene_markers scene ->
  run (button_onClick (Hotspot_component props hovered)) s =
  {| session := exec (deleteHotspot key) s; log := [StopPropagation] |} /\
  (key ∈ ids (hotspots s)) /\
  (key ∉ ids (hotspots (exec (deleteHotspot key) s))).
Proof.
  cbn [render viewport]. unfold Scene.
  destruct (JS.truthy_or_null (modelUrl s)); [|done]. cbn [negb].
  intros [= <-]. cbn [scene_markers].
  intros (h & [= -> ->] & Hin)%list_elem_of_fmap.
  split; [done|]. split; [by apply list_elem_of_fmap_2|].
  rewrite deleteHotspot_hotspots. apply others_gone.
Qed.

Lemma marker_button_stops_and_deletes_witness :
  run (button_onClick
         (Hotspot_component
            {| props_position := position wing; props_label := "Wing";
               onDelete := deleteHotspot "1700000000500" |} true))
      two_hotspots
  = {| session := annotated; log := [StopPropagation] |}.
Proof.
  pose proof (marker_button_stops_and_deletes two_hotspots
    (Scene (Some "blob:1") [engine; wing] addHotspot deleteHotspot)
    "1700000000500"
    {| props_position := position wing; props_label := "Wing";
       onDelete := deleteHotspot "1700000000500" |} true eq_refl) as H.
  destruct H as (Hrun & _ & _).
  - apply elem_of_cons. right. apply list_elem_of_here.
  - exact Hrun.
Defined.

(** The indicator of a marker shows exactly when the last pointer event on
    it was an enter; before any event, and after a leave, it is hidden.
    Hovering changes nothing else of what the marker shows. *)
Theorem indicator_follows_last_pointer_event (props : HotspotProps)
    (events : list PointerEvent) :
  let hovered := fold_left setHovered events false in
  indicator (Hotspot_component props hovered) =
    match last events with
    | Some PointerEnter => true
    | Some PointerLeave | None => false
    end /\
  text (Hotspot_component props hovered) = props_label props /\
  group_position (Hotspot_component props hovered) = props_position props.
Proof.
  intros hovered. subst hovered. split; [|done]. cbn [Hotspot_component indicator].
  induction events as [|e events _] using rev_ind; [done|].
  rewrite fold_left_app, last_snoc. by destruct e.
Qed.

(** ** While the clock moves on *)

(** In a run whose clicks read strictly increasing clock values, the keys
    React is given are pairwise distinct, among the markers and among the
    rows, and a delete button removes one hotspot and no more. *)
Theorem keys_are_distinct_while_clock_ticks (t : Z) (s : Session) :
  ticking t s ->
  (forall scene, viewport (render s) = Some scene ->
     NoDup (fst <$> scene_markers scene)) /\
  (forall n rows, hotspot_list (render s) = Some (n, rows) ->
     NoDup (row_key <$> rows)) /\
  (forall i s', step s (DeleteClicked i) = Some s' ->
     S (length (hotspots s')) = length (hotspots s)).
Proof.
  intros [Hnd _]%ticking_ids_distinct. split; [|split].
  - cbn [render viewport]. unfold Scene.
    destruct (JS.truthy_or_null (modelUrl s)); [|done]. cbn [negb].
    intros scene [= <-]. cbn [scene_markers].
    by rewrite <- list_fmap_compose.
  - cbn [render hotspot_list].
    destruct (0 <? length (hotspots s))%nat; [|done].
    intros n rows [= <- <-]. by rewrite rows_keys.
  - intros i s'. unfold step. cbn [enabled handle].
    destruct (bool_decide (i ∈ id <$> hotspots s)) eqn:Hin; [|done].
    apply bool_decide_eq_true in Hin. intros [= <-].
    rewrite deleteHotspot_hotspots.
    pose proof (others_carrying_length i (hotspots s)) as Hlen.
    rewrite (carrying_unique i) in Hlen by done. lia.
Qed.

Lemma keys_are_distinct_while_clock_ticks_witness :
  S (length (hotspots annotated)) = length (hotspots two_hotspots).
Proof.
  assert (ticking 1700000000500 two_hotspots) as Htick.
  { apply (ticking_click 1700000000000 annotated shift_click (Some "Wing")
             1700000000500); [|lia|vm_compute; reflexivity].
    apply (ticking_click 0 loaded shift_click (Some "Engine")
             1700000000000); [|lia|vm_compute; reflexivity].
    apply (ticking_file 0 initial (Some scene_glb) (Some "blob:1"));
      [apply ticking_initial|reflexivity]. }
  destruct (keys_are_distinct_while_clock_ticks _ _ Htick) as (_ & _ & Hdel).
  apply (Hdel "1700000000500"). vm_compute. reflexivity.
Defined.

(** ** From the page to the next page *)

(** A shift-click on the rendered model, answered with a non-empty label,
    puts one more marker on the next page, after the markers there were:
    at the point of the click, with the answer as label and the clock
    reading as key. *)
Theorem shift_click_puts_marker_at_point (s : Session) (scene : SceneView)
    (model : ModelView) (now : Z) (event : ClickEvent) (l : string) :
  viewport (render s) = Some scene -> scene_model scene = Some model ->
  shiftKey event = true -> JS.truthy l = true ->
  let s' := exec (model_onClick model now event (Some l)) s in
  exists scene' props,
    viewport (render s') = Some scene' /\
    scene_markers scene' =
      (scene_markers scene ++ [(JS.toString now, props)])%list /\
    props_position props
      = (x (point event), y (point event), z (point event)) /\
    props_label props = l.
Proof.
  cbn [render viewport]. unfold Scene.
  destruct (JS.truthy_or_null (modelUrl s)) eqn:Hurl; [|done]. cbn [negb].
  intros [= <-]. cbn [scene_model scene_markers].
  destruct (modelUrl s) as [url|] eqn:Hm; [|done].
  intros [= <-] Hshift Hl. cbn [Model model_onClick].
  assert (exec (handleClick (addHotspot now) event (Some l)) s
          = exec (addHotspot now (point event) l) s) as ->.
  { unfold exec at 1. rewrite run_handleClick_shift by done.
    cbn [session]. by rewrite Hl. }
  rewrite exec_addHotspot.
  cbn [modelUrl hotspots]. rewrite Hm, Hurl. cbn [negb].
  eexists _, _. split; [done|]. cbn [scene_markers].
  rewrite fmap_app. done.
Qed.

Lemma shift_click_puts_marker_at_point_witness :
  let s' := exec (model_onClick (Model "blob:1" addHotspot) 1700000000500
                    shift_click (Some "Wing")) annotated in
  exists scene' props,
    viewport (render s') = Some scene' /\
    scene_markers scene' =
      (scene_markers (Scene (Some "blob:1") [engine] addHotspot deleteHotspot)
         ++ [(JS.toString 1700000000500, props)])%list /\
    props_position props = (1%float, 2%float, 3%float) /\
    props_label props = "Wing".
Proof.
  apply (shift_click_puts_marker_at_point annotated
           (Scene (Some "blob:1") [engine] addHotspot deleteHotspot)
           (Model "blob:1" addHotspot) 1700000000500 shift_click "Wing");
    reflexivity.
Defined.

(** Pressing the clear button leaves the model in the viewport without a
    marker, takes the list off the page and makes the button read zero. *)
Theorem clear_button_empties_the_page (s : Session) (n : nat) :
  clear_button (render s) = Some n ->
  let s' := exec clearHotspots s in
  n = length (hotspots s) /\
  step s ClearClicked = Some s' /\
  clear_button (render s') = Some 0%nat /\
  hotspot_list (render s') = None /\
  exists scene',
    viewport (render s') = Some scene' /\ scene_markers scene' = [] /\
    model_url <$> scene_model scene' = modelUrl s.
Proof.
  cbn [render clear_button]. unfold step. cbn [enabled handle].
  destruct (JS.truthy_or_null (modelUrl s)) eqn:Hurl; [|done].
  intros [= <-]. rewrite exec_clearHotspots.
  unfold render, Scene. cbn [modelUrl hotspots clear_button hotspot_list
                             viewport length].
  rewrite Hurl. cbn [negb Nat.ltb Nat.leb].
  repeat (split; [done|]).
  eexists. split; [done|]. split; [done|].
  by destruct (modelUrl s).
Qed.

Lemma clear_button_empties_the_page_witness :
  let s' := exec clearHotspots two_hotspots in
  2%nat = length (hotspots two_hotspots) /\
  step two_hotspots ClearClicked = Some s' /\
  clear_button (render s') = Some 0%nat /\
  hotspot_list (render s') = None /\
  exists scene',
    viewport (render s') = Some scene' /\ scene_markers scene' = [] /\
    model_url <$> scene_model scene' = modelUrl two_hotspots.
Proof.
  apply (clear_button_empties_the_page two_hotspots 2). reflexivity.
Defined.
